(** * Underwater image enhancement: the pixel pipeline of
      [underwater_preprocessing.py] and the entry point of [main.py]

    The Python code works on NumPy arrays of 8-bit channel values and on
    IEEE 754 binary64 numbers ([float], [np.float64]).  The development
    keeps both as the code has them: channel values are integers of [Z]
    in the range [0, 255], and every floating-point operation is the
    binary64 operation of Rocq's primitive floats, so that a quotient, a
    product or a comparison below is the one the interpreter computes.

    OpenCV's own transforms ([cv2.cvtColor], [cv2.createCLAHE], drawing
    and file access) are not part of the repository; they are taken as
    the fields of a record of library primitives. *)

From Stdlib Require Import Reals Lra.
From Stdlib Require Import String Ascii ZArith List Bool Lia QArith Qround.
From Stdlib Require Import Floats Uint63.
Import ListNotations.

Set Warnings "-inexact-float".
Local Open Scope Z_scope.

(** ** NumPy scalars and casts *)

Module Np.

(** [x.astype(float)] on an unsigned integer (exact below 2^53). *)
Definition astype_float (z : Z) : float := PrimFloat.of_uint63 (Uint63.of_Z z).

(** The integer part of a finite binary64 number, rounded toward zero,
    as the C conversion from [double] to an integer type takes it, read
    off the sign, the mantissa and the exponent of the number. *)
Definition trunc_by_fields (x : float) : Z :=
  match Prim2SF x with
  | S754_finite s m e =>
      let v := Z.shiftl (Zpos m) e in if s then - v else v
  | _ => 0
  end.

(** The same integer part, computed with the primitive operations:
    [abs x = f * 2^(e - 2101)] with [f] in [0.5, 1), and the mantissa of
    [f] is the integer [f * 2^53], so that [abs x = m * 2^(e - 2154)]. *)
Definition trunc (x : float) : Z :=
  if PrimFloat.is_nan x || PrimFloat.is_infinity x then 0
  else
    let (f, e) := PrimFloat.frshiftexp (PrimFloat.abs x) in
    let m := PrimFloat.normfr_mantissa f in
    let v := if (e <=? 2154)%uint63
             then Uint63.to_Z (m >> (2154 - e))%uint63
             else Z.shiftl (Uint63.to_Z m) (Uint63.to_Z e - 2154) in
    if PrimFloat.get_sign x then - v else v.

(** [x.astype(np.uint8)], and the cast of a store into a [uint8] array:
    the C conversion [(npy_ubyte)x].  Inside [0, 256) it drops the
    fraction.  Outside, C leaves the result open; NumPy built for x86-64
    converts through a wider integer and keeps the low byte, which is
    what the reduction modulo 256 records. *)
Definition astype_uint8 (x : float) : Z := trunc x mod 256.

(** [np.maximum], [np.minimum] and [np.clip] on binary64 scalars; a NaN
    operand is propagated. *)
Definition maximum (a b : float) : float :=
  if PrimFloat.is_nan a then a
  else if PrimFloat.is_nan b then b
  else if (a <? b)%float then b else a.

Definition minimum (a b : float) : float :=
  if PrimFloat.is_nan a then a
  else if PrimFloat.is_nan b then b
  else if (b <? a)%float then b else a.

Definition clip (x lo hi : float) : float := minimum (maximum x lo) hi.

(** Sum of the elements of an integer plane, in row-major order. *)
Definition sum (p : list (list Z)) : Z := fold_right Z.add 0 (concat p).

(** Number of elements. *)
Definition size {A} (p : list (list A)) : Z := Z.of_nat (length (concat p)).

(** [np.mean] / [np.average] of a [uint8] plane: NumPy accumulates in
    binary64 and divides by the element count.  The partial sums are
    integers, exact in binary64 below 2^53 (more than 2^45 pixels would
    be needed to leave that range), so the accumulated value is the
    conversion of the integer sum whatever the order of summation. *)
Definition mean (p : list (list Z)) : float :=
  (astype_float (sum p) / astype_float (size p))%float.

End Np.

(** Python's builtin [min(a, b)]: the first argument unless the second
    compares strictly smaller (so a NaN first argument is returned). *)
Definition py_min (a b : float) : float := if (b <? a)%float then b else a.

(** ** Rasters and planes *)

(** A pixel holds three channel values; a raster is a list of rows. For a
    device-colour raster the order is blue, green, red; for a perceptual
    raster it is L, A, B. *)
Definition pixel : Type := Z * Z * Z.
Definition raster : Type := list (list pixel).
Definition plane : Type := list (list Z).

Definition chan0 (p : pixel) : Z := fst (fst p).
Definition chan1 (p : pixel) : Z := snd (fst p).
Definition chan2 (p : pixel) : Z := snd p.

(** [image[:, :, k]] *)
Definition channel (k : pixel -> Z) (img : raster) : plane := map (map k) img.

Definition uint8 (z : Z) : Prop := 0 <= z <= 255.
Definition pixel_ok (p : pixel) : Prop :=
  uint8 (chan0 p) /\ uint8 (chan1 p) /\ uint8 (chan2 p).
Definition raster_ok (img : raster) : Prop := Forall (Forall pixel_ok) img.

(** [shape h w x]: [x] has [h] rows of [w] entries each. *)
Definition shape {A} (h w : nat) (x : list (list A)) : Prop :=
  length x = h /\ Forall (fun row => length row = w) x.

(** ** Red channel compensation (lines 40-48 of the pipeline) *)

(** [compensated_r = r_f + (g_f - r_f) * (1.0 - r_f) * g_f] for one pixel. *)
Definition compensated_r (r g : Z) : float :=
  let r_f := (Np.astype_float r / 255)%float in
  let g_f := (Np.astype_float g / 255)%float in
  (r_f + (g_f - r_f) * (1 - r_f) * g_f)%float.

(** [r_new = np.clip(compensated_r * 255, 0, 255).astype(np.uint8)] *)
Definition r_new (r g : Z) : Z :=
  Np.astype_uint8 (Np.clip (compensated_r r g * 255)%float 0%float 255%float).

Definition all_bytes : list Z := map Z.of_nat (seq 0 256).

Definition for_all_bytes (P : Z -> bool) : bool := forallb P all_bytes.

(** The formula as the specification words it, in exact rational
    arithmetic: [r = R/255], [g = G/255],
    [compensated = r + (g - r) * (1 - r) * g], then [compensated * 255]
    clamped to [0, 255] and cut to its integer part. *)
Module RedSpec.
Local Open Scope Q_scope.

Definition normalized (v : Z) : Q := inject_Z v / 255.

Definition compensated (R G : Z) : Q :=
  let r := normalized R in
  let g := normalized G in
  r + (g - r) * (1 - r) * g.

Definition clamp (x : Q) : Q :=
  if Qle_bool x 0 then 0 else if Qle_bool 255 x then 255 else x.

Definition new_red (R G : Z) : Z := Qfloor (clamp (compensated R G * 255)).

(** The same value rounded to the nearest integer, for comparison. *)
Definition new_red_nearest (R G : Z) : Z :=
  Qfloor (clamp (compensated R G * 255) + (1 # 2)).
End RedSpec.

(** The scaled formula over the common denominator 255^2 = 65025, and the
    resulting 8-bit value by integer arithmetic. *)
Definition scaled_numerator (R G : Z) : Z :=
  R * 65025 + (G - R) * (255 - R) * G.

Definition new_red_int (R G : Z) : Z :=
  let n := scaled_numerator R G in
  if n <=? 0 then 0 else if 255 * 65025 <=? n then 255 else n / 65025.

(** ** Channel planes: [cv2.split] and [cv2.merge] *)

Definition split (img : raster) : plane * plane * plane :=
  (channel chan0 img, channel chan1 img, channel chan2 img).

(** [cv2.merge] wants planes of one size; it raises [cv2.error]
    otherwise, which is [None] here. *)
Fixpoint merge_row (c0 c1 c2 : list Z) : option (list pixel) :=
  match c0, c1, c2 with
  | [], [], [] => Some []
  | x :: c0', y :: c1', z :: c2' =>
      option_map (cons (x, y, z)) (merge_row c0' c1' c2')
  | _, _, _ => None
  end.

Fixpoint merge (c0 c1 c2 : plane) : option raster :=
  match c0, c1, c2 with
  | [], [], [] => Some []
  | x :: c0', y :: c1', z :: c2' =>
      match merge_row x y z, merge c0' c1' c2' with
      | Some row, Some rest => Some (row :: rest)
      | _, _ => None
      end
  | _, _, _ => None
  end.

(** An element-wise operation on two planes of one size (the two operands
    below always come from one [split]). *)
Definition plane_map2 {A B C} (f : A -> B -> C)
    (p : list (list A)) (q : list (list B)) : list (list C) :=
  map (fun rows => map (fun xy => f (fst xy) (snd xy)) (combine (fst rows) (snd rows)))
      (combine p q).

(** Lines 29-51: split, compensate the red plane from red and green,
    merge again.  The embedding is for rasters that hold a pixel, as the
    decoder hands them over: on an array of size zero [cv2.split] returns
    no plane and line 29 raises. *)
Definition red_channel_compensation (image : raster) : option raster :=
  let '(b, g, r) := split image in
  let r_new := plane_map2 r_new r g in
  merge b g r_new.

(** ** Chromatic cast correction (lines 56-62) *)

(** The right-hand side of lines 61 and 62 for one pixel:
    [c - ((avg - 128) * (l / 255.0) * 1.2)], a binary64 value. *)
Definition chroma_shift (avg : float) (l c : Z) : float :=
  (Np.astype_float c - ((avg - 128) * (Np.astype_float l / 255) * 1.2))%float.

(** The store into the [uint8] raster casts the value; there is no
    [np.clip] on this path. *)
Definition chroma_store (avg : float) (l c : Z) : Z :=
  Np.astype_uint8 (chroma_shift avg l c).

Definition cast_correct (result : raster) : raster :=
  let avg_a := Np.mean (channel chan1 result) in
  let avg_b := Np.mean (channel chan2 result) in
  (* result[:, :, 1] = ... *)
  let result :=
    map (map (fun p : pixel => (chan0 p, chroma_store avg_a (chan0 p) (chan1 p), chan2 p)))
        result in
  (* result[:, :, 2] = ... *)
  map (map (fun p : pixel => (chan0 p, chan1 p, chroma_store avg_b (chan0 p) (chan2 p))))
      result.

(** What the specification asks of the corrector: the shifted value
    clamped to [0, 255] before it becomes an 8-bit value. *)
Definition chroma_store_clamped (avg : float) (l c : Z) : Z :=
  Np.astype_uint8 (Np.clip (chroma_shift avg l c) 0%float 255%float).

Definition cast_correct_clamped (result : raster) : raster :=
  let avg_a := Np.mean (channel chan1 result) in
  let avg_b := Np.mean (channel chan2 result) in
  map (map (fun p : pixel =>
              (chan0 p,
               chroma_store_clamped avg_a (chan0 p) (chan1 p),
               chroma_store_clamped avg_b (chan0 p) (chan2 p))))
      result.

(** ** Library primitives

    The transforms the code delegates to OpenCV, NumPy's standard
    deviation (whose rounding depends on NumPy's order of summation) and
    the two [os.path] helpers, as an interface. *)
Record Library : Type := {
  (** [cv2.cvtColor(x, cv2.COLOR_BGR2LAB)] *)
  cvtColor_BGR2LAB : raster -> raster;
  (** [cv2.cvtColor(x, cv2.COLOR_LAB2BGR)] *)
  cvtColor_LAB2BGR : raster -> raster;
  (** [cv2.cvtColor(x, cv2.COLOR_BGR2GRAY)] *)
  cvtColor_BGR2GRAY : raster -> plane;
  (** [cv2.createCLAHE(clipLimit, tileGridSize).apply(l)] *)
  CLAHE_apply : float -> nat * nat -> plane -> plane;
  (** [cv2.imread(path)]: the raster, or [None] *)
  imread : string -> option raster;
  (** [cv2.putText(img, text, org, FONT_HERSHEY_SIMPLEX, 1, (0,255,0), 2)] *)
  putText : raster -> string -> Z * Z -> raster;
  (** [np.std] *)
  np_std : plane -> float;
  (** [os.path.splitext(os.path.basename(path))[0]] *)
  base_name_of : string -> string;
  (** [os.path.join] *)
  path_join : string -> string -> string;
  (** The calls that act on the file system or on the display: the class
      of the exception the call raises in the environment of the run, or
      [None] when it returns.  [os.makedirs(dir, exist_ok=True)] raises
      [FileExistsError] when [dir] names a file. *)
  os_makedirs : string -> option string;
  imwrite : string -> raster -> option string;
  imshow : string -> raster -> option string;
  waitKey : option string;
  destroyAllWindows : option string
}.

(** OpenCV documents the destination of [cvtColor] and of [CLAHE.apply]
    as an image of the size of the source. *)
Record keeps_size (cv : Library) : Prop := {
  BGR2LAB_size : forall h w x, shape h w x -> shape h w (cvtColor_BGR2LAB cv x);
  LAB2BGR_size : forall h w x, shape h w x -> shape h w (cvtColor_LAB2BGR cv x);
  CLAHE_size : forall clip grid h w p,
      shape h w p -> shape h w (CLAHE_apply cv clip grid p)
}.

Definition bind {A B} (x : option A) (f : A -> option B) : option B :=
  match x with Some a => f a | None => None end.

Notation "x <- e ;; k" := (bind e (fun x => k))
  (at level 61, e at next level, right associativity).

Section Pipeline.
Context (cv : Library).

(** Lines 66-73: CLAHE on the luminance plane only. *)
Definition contrast_enhancement (result : raster) : option raster :=
  let '(l, a, b_lab) := split result in
  let l := CLAHE_apply cv 0.5%float (8%nat, 8%nat) l in
  merge l a b_lab.

(** The core: [preprocess_underwater_image(image)].  [None] stands for
    a [cv2.error] raised by [cv2.merge]. *)
Definition preprocess_underwater_image (image : raster) : option raster :=
  image_compensated <- red_channel_compensation image ;;
  let result := cvtColor_BGR2LAB cv image_compensated in
  let result := cast_correct result in
  final_lab <- contrast_enhancement result ;;
  Some (cvtColor_LAB2BGR cv final_lab).

(** *** Statistics reporter *)

Record stats : Type := {
  st_mean : float;
  st_std : float;
  st_min : Z;
  st_max : Z;
  st_contrast : float
}.

(** [np.min] and [np.max] of a [uint8] plane (the decoder never hands
    over an empty raster, for which NumPy would raise). *)
Definition amin (p : plane) : Z := fold_right Z.min 255 (concat p).
Definition amax (p : plane) : Z := fold_right Z.max 0 (concat p).

(** The figures [get_image_statistics] formats and prints; the last
    line is [np.std(gray)/np.mean(gray)], a binary64 division. *)
Definition get_image_statistics (image : raster) : stats :=
  let gray := cvtColor_BGR2GRAY cv image in
  {| st_mean := Np.mean gray;
     st_std := np_std cv gray;
     st_min := amin gray;
     st_max := amax gray;
     st_contrast := (np_std cv gray / Np.mean gray)%float |}.

(** *** Side-by-side comparison *)

(** [np.hstack([a, b])] joins the rows; it raises [ValueError] when the
    heights differ. *)
Definition hstack (a b : raster) : option raster :=
  if Nat.eqb (length a) (length b)
  then Some (map (fun rows => fst rows ++ snd rows)%list (combine a b))
  else None.

Definition width (img : raster) : nat := length (hd [] img).
Definition height (img : raster) : nat := length img.

Definition visualize_preprocessing_comparison (original enhanced : raster)
  : option raster :=
  let w := width original in
  comparison <- hstack original enhanced ;;
  let comparison := putText cv comparison "Original" (10, 30) in
  let comparison :=
    putText cv comparison "Enhanced (CLAHE)" (Z.of_nat w + 10, 30) in
  Some comparison.

End Pipeline.

(** ** Gray-world white balance, the scale computation (lines 9-17) *)

Definition gray_world_means (image : raster) : float * float * float :=
  (Np.mean (channel chan0 image),
   Np.mean (channel chan1 image),
   Np.mean (channel chan2 image)).

Definition gray_world_avg_gray (image : raster) : float :=
  let '(avg_b, avg_g, avg_r) := gray_world_means image in
  ((avg_b + avg_g + avg_r) / 3)%float.

(** [scale_b, scale_g, scale_r]: each quotient is taken as it comes. *)
Definition gray_world_scales (image : raster) : float * float * float :=
  let '(avg_b, avg_g, avg_r) := gray_world_means image in
  let avg_gray := ((avg_b + avg_g + avg_r) / 3)%float in
  (py_min (avg_gray / avg_b) 4.0,
   py_min (avg_gray / avg_g) 4.0,
   py_min (avg_gray / avg_r) 4.0)%float.

(** ** The entry point [process_image] of [main.py] *)

(** What the entry point does to the outside world, in order.  A [print]
    whose text is built from numbers is kept with its numbers rather than
    formatted; [EvPrintStats] stands for the five lines of
    [get_image_statistics].  [EvCore] is a ghost event that marks the call
    of the core pipeline.  An event of the file system or of the display
    is recorded when its call has returned. *)
Inductive event : Type :=
| EvPrint (text : string)
| EvPrintSize (w h : nat)
| EvPrintStats (name : string) (s : stats)
| EvCore (image : raster)
| EvMakedirs (dir : string)
| EvImwrite (path : string) (img : raster)
| EvImshow (title : string) (img : raster)
| EvWaitKey
| EvDestroyAllWindows.

(** How a call ends: it returns (always [None] in [process_image]), or an
    exception of the given class reaches the caller. *)
Inductive outcome : Type :=
| Returned
| Raised (exception : string).

Definition nl : string := String (ascii_of_nat 10) EmptyString.

(** The check mark U+2713 that opens some messages, in UTF-8. *)
Definition check_mark : string :=
  String (ascii_of_nat 226)
    (String (ascii_of_nat 156) (String (ascii_of_nat 147) EmptyString)).

(** Prints, then the rest of the run. *)
Definition say (evs : list event) (rest : list event * outcome)
  : list event * outcome :=
  (evs ++ fst rest, snd rest).

(** A call of the outside world, then the rest of the run: when the call
    raises, the run ends there and the exception reaches the caller
    ([process_image] has no handler); when it returns, its event is
    recorded and the run goes on. *)
Definition call (raised : option string) (ev : event)
    (rest : list event * outcome) : list event * outcome :=
  match raised with
  | Some exception => ([], Raised exception)
  | None => (ev :: fst rest, snd rest)
  end.

Section Main.
Context (cv : Library).

Definition save_and_report (image_path output_dir : string)
    (original enhanced comparison : raster) : list event * outcome :=
  let base_name := base_name_of cv image_path in
  let comparison_path := path_join cv output_dir (base_name ++ "_comparison.jpg") in
  let original_path := path_join cv output_dir (base_name ++ "_original.jpg") in
  let enhanced_path := path_join cv output_dir (base_name ++ "_enhanced.jpg") in
  call (imwrite cv comparison_path comparison)
       (EvImwrite comparison_path comparison)
  (say [ EvPrint (nl ++ check_mark ++ " Saved comparison: " ++ comparison_path) ]
  (call (imwrite cv original_path original)
        (EvImwrite original_path original)
  (call (imwrite cv enhanced_path enhanced)
        (EvImwrite enhanced_path enhanced)
  (say [ EvPrint (check_mark ++ " Saved original: " ++ original_path);
         EvPrint (check_mark ++ " Saved enhanced: " ++ enhanced_path);
         EvPrint (nl ++ check_mark ++ " Processing complete! All images saved to '"
                     ++ output_dir ++ "/' directory") ]
       ([], Returned))))).

Definition show_and_wait (comparison : raster) : list event * outcome :=
  let title := "Underwater Image Enhancement (CLAHE)"%string in
  call (imshow cv title comparison) (EvImshow title comparison)
  (say [ EvPrint (nl ++ check_mark
                     ++ " Processing complete! Press any key to close window...") ]
  (call (waitKey cv) EvWaitKey
  (call (destroyAllWindows cv) EvDestroyAllWindows
        ([], Returned)))).

Definition process_image (image_path : string) (save_output : bool)
    (output_dir : string) : list event * outcome :=
  say [ EvPrint (nl ++ "Processing: " ++ image_path) ]
  match imread cv image_path with
  | None =>
      say [ EvPrint ("Error: Could not load image from " ++ image_path) ]
          ([], Returned)
  | Some original =>
      say [ EvPrintSize (width original) (height original);
            EvPrintStats "Original" (get_image_statistics cv original);
            EvCore original ]
      match preprocess_underwater_image cv original with
      | None => ([], Raised "cv2.error")
      | Some enhanced =>
          say [ EvPrintStats "Enhanced" (get_image_statistics cv enhanced) ]
          (if save_output
           then
             call (os_makedirs cv output_dir) (EvMakedirs output_dir)
             match visualize_preprocessing_comparison cv original enhanced with
             | None => ([], Raised "ValueError")
             | Some comparison =>
                 save_and_report image_path output_dir
                                 original enhanced comparison
             end
           else
             match visualize_preprocessing_comparison cv original enhanced with
             | None => ([], Raised "ValueError")
             | Some comparison => show_and_wait comparison
             end)
      end
  end.

End Main.

(** The core was entered during a run. *)
Definition core_invoked (run : list event * outcome) : Prop :=
  exists image, In (EvCore image) (fst run).

(** The run ended with the given exception at the caller. *)
Definition fails_with (name : string) (run : list event * outcome) : Prop :=
  snd run = Raised name.

(** ** Concrete inputs *)

(** A stand-in for the library, to run the statements on concrete
    inputs: conversions that return their argument, one decodable path,
    which is also the one name under which no directory can be made. *)
Definition stand_in : Library := {|
  cvtColor_BGR2LAB := fun x => x;
  cvtColor_LAB2BGR := fun x => x;
  cvtColor_BGR2GRAY := channel chan1;
  CLAHE_apply := fun _ _ p => p;
  imread := fun path =>
    if String.eqb path "reef.png" then Some [[(200, 50, 10)]] else None;
  putText := fun img _ _ => img;
  np_std := fun _ => 0%float;
  base_name_of := fun path => path;
  path_join := fun dir name => (dir ++ "/" ++ name)%string;
  os_makedirs := fun dir =>
    if String.eqb dir "reef.png" then Some "FileExistsError"%string else None;
  imwrite := fun _ _ => None;
  imshow := fun _ _ => None;
  waitKey := None;
  destroyAllWindows := None
|}.

(** A perceptual raster of two rows of four pixels: the L, A, B values of
    one magenta pixel among seven green ones. *)
Definition magenta_among_green : raster :=
  [ [ (154, 226, 67); (224, 42, 211); (224, 42, 211); (224, 42, 211) ];
    [ (224, 42, 211); (224, 42, 211); (224, 42, 211); (224, 42, 211) ] ].

(** A perceptual raster of one row of four pixels: the L, A, B values of
    one yellow pixel, BGR (0, 255, 255), among three blue ones, BGR
    (255, 0, 0).  The red compensation leaves both colours as they are
    (and turns a green pixel into this yellow), so the raster is one the
    corrector receives in the pipeline. *)
Definition yellow_among_blue : raster :=
  [ [ (248, 106, 223); (82, 207, 20); (82, 207, 20); (82, 207, 20) ] ].

(** A device-colour raster with no blue at all. *)
Definition no_blue : raster := [ [ (0, 10, 20); (0, 30, 40) ] ].

Definition all_black : raster := [ [ (0, 0, 0); (0, 0, 0) ] ].

(** A device-colour raster used to exercise the red compensation. *)
Definition reef_sample : raster :=
  [ [ (200, 50, 10); (128, 128, 128) ]; [ (90, 12, 0); (30, 40, 250) ] ].

(** A perceptual raster whose A and B planes both average 128. *)
Definition neutral_sample : raster :=
  [ [ (100, 120, 130); (200, 136, 126) ] ].

(** Binary64 values on which the two readings of the integer part are
    compared. *)
Definition trunc_samples : list float :=
  [ 0; -0; 1; 0.5; 0.99999; 1.5; 17.5; 255; 255.5; 254.99999999999997;
    271.65647058823527; 19.894117647058827; -50.4; -0.3; -1; -255.9;
    1e-300; 4e-320; 1e300; 9007199254740992; 18014398509481984;
    -18014398509481984; 1e19; 4294967296.5; 123456789.987;
    infinity; neg_infinity; nan ]%float.

(** ** Signs of binary64 values *)

(** A value above zero: a positive finite number or plus infinity. *)
Definition SFpositive (x : spec_float) : Prop :=
  match x with
  | S754_finite false _ _ | S754_infinity false => True
  | _ => False
  end.

(** ** The colour space transform of the specification *)

(** Modelled from the spec: the forward transform of the Color Space
    Transformer (section 4.3), which the code leaves to
    [cv2.cvtColor(x, cv2.COLOR_BGR2LAB)], a function that is not in the
    repository.  The chain is the standard one the specification names:
    sRGB to linear light, linear light to CIE XYZ, XYZ to CIE LAB
    relative to the D65 white, L scaled from [0, 100] into [0, 255], a
    and b offset by 128, and each value stored as the nearest 8-bit
    integer.  The constants are those of the sRGB and D65 standards as
    OpenCV documents them; real numbers stand for the arithmetic, so that
    the only loss is the storing in 8 bits. *)
Module LabSpec.
Local Open Scope R_scope.






End LabSpec.







(** ** Vocabulary for the further properties *)

(** The shifted chroma value of lines 61-62 lies in [0, 255]. *)
Definition shift_in_range (avg : float) (l c : Z) : Prop :=
  (0 <=? chroma_shift avg l c)%float = true /\
  (chroma_shift avg l c <=? 255)%float = true.

(** Every shifted A and B value of a perceptual raster lies in
    [0, 255], for the means the corrector computes. *)
Definition shifts_in_range (result : raster) : Prop :=
  Forall (Forall (fun p : pixel =>
    shift_in_range (Np.mean (channel chan1 result)) (chan0 p) (chan1 p) /\
    shift_in_range (Np.mean (channel chan2 result)) (chan0 p) (chan2 p)))
    result.

(** [cv2.putText] draws on the image it is given: the size stays. *)
Definition draws_in_place (cv : Library) : Prop :=
  forall h w img text org, shape h w img -> shape h w (putText cv img text org).

(** The files a run writes, in order, and the rasters the core was
    called on. *)
Definition imwrites (t : list event) : list (string * raster) :=
  flat_map (fun ev => match ev with EvImwrite p img => [(p, img)] | _ => [] end) t.

Definition core_calls (t : list event) : list raster :=
  flat_map (fun ev => match ev with EvCore img => [img] | _ => [] end) t.


Definition touches_disk (ev : event) : bool :=
  match ev with EvMakedirs _ | EvImwrite _ _ => true | _ => false end.

Definition uses_window (ev : event) : bool :=
  match ev with
  | EvImshow _ _ | EvWaitKey | EvDestroyAllWindows => true
  | _ => false
  end.

(** A perceptual raster with a mild cast: the A plane averages 145, the
    B plane 115. *)
Definition cast_sample : raster :=
  [ [ (100, 140, 120); (200, 150, 110) ] ].

(** A device-colour raster in which red equals green, or green is 0, or
    red is 255, at every pixel. *)
Definition red_fixed_sample : raster :=
  [ [ (7, 90, 90); (200, 0, 33) ]; [ (1, 140, 255); (0, 0, 0) ] ].

(** * Properties *)

(** ** Exhaustive checks over 8-bit values *)

Lemma for_all_bytes_spec (P : Z -> bool) :
  for_all_bytes P = true -> forall z, uint8 z -> P z = true.
Proof.
  unfold for_all_bytes, all_bytes, uint8. intros H z Hz.
  rewrite forallb_forall in H. apply H.
  apply in_map_iff. exists (Z.to_nat z). split; [lia|].
  apply in_seq. lia.
Qed.

Example trunc_agrees_on_samples :
  forallb (fun x => Np.trunc x =? Np.trunc_by_fields x) trunc_samples = true.
Proof. vm_compute. reflexivity. Qed.

(** The two readings also agree on every value the red compensation
    hands to the cast, for a few red values and all green values. *)
Example trunc_agrees_on_red_values :
  forallb (fun r => for_all_bytes (fun g =>
     let x := Np.clip (compensated_r r g * 255)%float 0%float 255%float in
     Np.trunc x =? Np.trunc_by_fields x))
    [0; 10; 128; 200; 255] = true.
Proof. vm_compute. reflexivity. Qed.

Example r_new_ex1 : r_new 10 50 = 17.
Proof. vm_compute. reflexivity. Qed.

Example r_new_ex2 : r_new 0 12 = 0.
Proof. vm_compute. reflexivity. Qed.

Example r_new_ex3 : r_new 128 128 = 128.
Proof. vm_compute. reflexivity. Qed.

Lemma for_all_bytes_spec2 (P : Z -> Z -> bool) :
  for_all_bytes (fun x => for_all_bytes (P x)) = true ->
  forall x y, uint8 x -> uint8 y -> P x y = true.
Proof.
  intros H x y Hx Hy.
  apply (for_all_bytes_spec (P x)); [|exact Hy].
  apply (for_all_bytes_spec (fun x => for_all_bytes (P x))); assumption.
Qed.

(** ** Planes *)

Lemma merge_row_map {A} (f g h : A -> Z) (l : list A) :
  merge_row (map f l) (map g l) (map h l)
  = Some (map (fun x => (f x, g x, h x)) l).
Proof.
  induction l as [|x l IH]; simpl; [reflexivity|].
  rewrite IH. reflexivity.
Qed.

Lemma merge_map {A} (f g h : A -> Z) (x : list (list A)) :
  merge (map (map f) x) (map (map g) x) (map (map h) x)
  = Some (map (map (fun a => (f a, g a, h a))) x).
Proof.
  induction x as [|row x IH]; simpl; [reflexivity|].
  rewrite merge_row_map, IH. reflexivity.
Qed.

Lemma combine_map_same {A B C} (f : A -> B) (g : A -> C) (l : list A) :
  combine (map f l) (map g l) = map (fun x => (f x, g x)) l.
Proof. induction l as [|x l IH]; simpl; [|rewrite IH]; reflexivity. Qed.

Lemma plane_map2_map {A B C D} (op : B -> C -> D) (f : A -> B) (g : A -> C)
    (x : list (list A)) :
  plane_map2 op (map (map f) x) (map (map g) x)
  = map (map (fun a => op (f a) (g a))) x.
Proof.
  unfold plane_map2. rewrite combine_map_same, map_map.
  apply map_ext. intros row. simpl.
  rewrite combine_map_same, map_map. reflexivity.
Qed.

Lemma map_map_ext_ok {B} (f g : pixel -> B) (P : pixel -> Prop) (x : raster) :
  Forall (Forall P) x ->
  (forall p, P p -> f p = g p) ->
  map (map f) x = map (map g) x.
Proof.
  intros Hx Hfg. apply map_ext_in. intros row Hrow.
  apply map_ext_in. intros p Hp. apply Hfg.
  rewrite Forall_forall in Hx. specialize (Hx row Hrow).
  rewrite Forall_forall in Hx. exact (Hx p Hp).
Qed.

(** ** Red channel compensation *)

(** The code, pixel by pixel: blue and green as they were, red replaced. *)
Lemma red_channel_compensation_pixelwise (image : raster) :
  red_channel_compensation image
  = Some (map (map (fun p : pixel => (chan0 p, chan1 p, r_new (chan2 p) (chan1 p))))
              image).
Proof.
  unfold red_channel_compensation, split, channel.
  rewrite plane_map2_map. apply merge_map.
Qed.

(** The rational formula of the specification, brought over the common
    denominator. *)
Lemma compensated_scaled (R G : Z) :
  (RedSpec.compensated R G * 255 == scaled_numerator R G # 65025)%Q.
Proof.
  unfold RedSpec.compensated, RedSpec.normalized, scaled_numerator.
  rewrite (Qmake_Qdiv _ 65025).
  unfold Z.sub.
  repeat first [ rewrite inject_Z_plus | rewrite inject_Z_mult
               | rewrite inject_Z_opp ].
  change (inject_Z (Z.pos 65025)) with (65025%Q).
  change (inject_Z 65025) with (65025%Q).
  change (inject_Z 255) with (255%Q).
  field.
Qed.

Lemma new_red_as_int (R G : Z) : RedSpec.new_red R G = new_red_int R G.
Proof.
  unfold RedSpec.new_red, RedSpec.clamp, new_red_int.
  pose proof (compensated_scaled R G) as Hx.
  set (x := (RedSpec.compensated R G * 255)%Q) in *.
  set (n := scaled_numerator R G) in *.
  destruct (Qle_bool x 0) eqn:E1.
  - apply Qle_bool_iff in E1. rewrite Hx in E1. unfold Qle in E1. simpl in E1.
    destruct (Z.leb_spec n 0); [reflexivity | lia].
  - assert (H0 : 0 < n).
    { destruct (Z.leb_spec n 0) as [Hle|]; [|assumption].
      assert (Hq : Qle_bool x 0 = true).
      { apply Qle_bool_iff. rewrite Hx. unfold Qle. simpl. lia. }
      congruence. }
    destruct (Z.leb_spec n 0); [lia|].
    destruct (Qle_bool 255 x) eqn:E2.
    + apply Qle_bool_iff in E2. rewrite Hx in E2. unfold Qle in E2. simpl in E2.
      destruct (Z.leb_spec (255 * 65025) n); [reflexivity | lia].
    + destruct (Z.leb_spec (255 * 65025) n) as [Hge|Hlt].
      * assert (Hq : Qle_bool 255 x = true).
        { apply Qle_bool_iff. rewrite Hx. unfold Qle. simpl. lia. }
        congruence.
      * rewrite Hx. reflexivity.
Qed.

(** The binary64 computation of the code yields, on every pair of 8-bit
    values, the integer part of the exact rational formula. *)
Lemma r_new_exact (r g : Z) :
  uint8 r -> uint8 g -> r_new r g = RedSpec.new_red r g.
Proof.
  intros Hr Hg. rewrite new_red_as_int.
  pose (chk := fun r g : Z =>
    let n := scaled_numerator r g in
    let q := r_new r g in
    if n <=? 0 then q =? 0
    else if 255 * 65025 <=? n then q =? 255
    else (q * 65025 <=? n) && (n <? (q + 1) * 65025)).
  assert (Hall : chk r g = true).
  { apply for_all_bytes_spec2; [vm_compute; reflexivity | exact Hr | exact Hg]. }
  unfold chk, new_red_int in *.
  destruct (scaled_numerator r g <=? 0); [apply Z.eqb_eq; exact Hall|].
  destruct (255 * 65025 <=? scaled_numerator r g); [apply Z.eqb_eq; exact Hall|].
  apply andb_true_iff in Hall. destruct Hall as [Hlo Hhi].
  apply Z.leb_le in Hlo. apply Z.ltb_lt in Hhi.
  apply Z.div_unique with (r := scaled_numerator r g - r_new r g * 65025); lia.
Qed.

(** The conversion to 8 bits drops the fraction; it does not round to the
    nearest integer: at red 0 and green 12 the scaled value is 144/255. *)
Lemma r_new_drops_fraction :
  r_new 0 12 = 0 /\ RedSpec.new_red_nearest 0 12 = 1.
Proof. split; vm_compute; reflexivity. Qed.

(** C1. For every input raster of 8-bit values, the red channel
    compensation yields the raster whose blue and green values are those
    of the input and whose red value is, per pixel, the formula of the
    specification: with r = R/255 and g = G/255,
    compensated = r + (g - r) * (1 - r) * g, scaled by 255, clamped to
    [0, 255] and converted to an 8-bit value (the conversion keeps the
    integer part). *)
Theorem red_compensation_refines_spec (image : raster) :
  raster_ok image ->
  red_channel_compensation image
  = Some (map (map (fun p : pixel =>
                      (chan0 p, chan1 p, RedSpec.new_red (chan2 p) (chan1 p))))
              image).
Proof.
  intros Hok. rewrite red_channel_compensation_pixelwise. f_equal.
  apply (map_map_ext_ok _ _ pixel_ok); [exact Hok|].
  intros p (H0 & H1 & H2). rewrite r_new_exact by assumption. reflexivity.
Qed.

(** C5. For 8-bit red and green values: when green is at least red, the
    compensated red is at least the original red; when green is below
    red, the compensated red does not exceed the original red.  Both hold
    for the normalized binary64 value and for the 8-bit value after the
    clamp and the conversion. *)
Theorem red_compensation_monotone (r g : Z) :
  uint8 r -> uint8 g ->
  (r <= g ->
     r <= r_new r g /\
     ((Np.astype_float r / 255) <=? compensated_r r g)%float = true) /\
  (g < r ->
     r_new r g <= r /\
     (compensated_r r g <=? (Np.astype_float r / 255))%float = true).
Proof.
  intros Hr Hg.
  pose (chk := fun r g : Z =>
    if r <=? g
    then (r <=? r_new r g)
         && ((Np.astype_float r / 255) <=? compensated_r r g)%float
    else (r_new r g <=? r)
         && (compensated_r r g <=? (Np.astype_float r / 255))%float).
  assert (Hall : chk r g = true).
  { apply for_all_bytes_spec2; [vm_compute; reflexivity | exact Hr | exact Hg]. }
  unfold chk in Hall.
  destruct (Z.leb_spec r g) as [Hle|Hgt];
    apply andb_true_iff in Hall; destruct Hall as [Ha Hb];
    apply Z.leb_le in Ha; split; intros H; try lia; split; assumption.
Qed.

(** ** Chromatic cast correction *)

(** With a mean of exactly 128 the shift is [0.0] and the store gives the
    value back. *)
Lemma chroma_store_neutral (l c : Z) :
  uint8 l -> uint8 c -> chroma_store 128 l c = c.
Proof.
  intros Hl Hc. apply Z.eqb_eq. revert l c Hl Hc.
  apply (for_all_bytes_spec2 (fun l c => chroma_store 128 l c =? c)).
  vm_compute. reflexivity.
Qed.

(** C6. For every perceptual raster of 8-bit values whose A-plane mean
    and B-plane mean, as the corrector computes them, both equal 128, the
    corrector returns the raster unchanged: the A and B planes (and L)
    are exactly those of the input. *)
Theorem cast_correct_neutral_identity (result : raster) :
  raster_ok result ->
  Np.mean (channel chan1 result) = 128%float ->
  Np.mean (channel chan2 result) = 128%float ->
  cast_correct result = result.
Proof.
  intros Hok Ha Hb. unfold cast_correct. rewrite Ha, Hb.
  rewrite map_map.
  transitivity (map (map (fun p : pixel => p)) result).
  - apply map_ext_in. intros row Hrow. rewrite map_map.
    apply map_ext_in. intros p Hp.
    unfold raster_ok in Hok. rewrite Forall_forall in Hok.
    specialize (Hok row Hrow). rewrite Forall_forall in Hok.
    destruct (Hok p Hp) as (H0 & H1 & H2).
    destruct p as [[l a] b]. unfold chan0, chan1, chan2 in *. simpl in *.
    rewrite !chroma_store_neutral by assumption. reflexivity.
  - rewrite <- (map_id result) at 2. apply map_ext. intros row. apply map_id.
Qed.

(** ** Dimensions *)

Lemma shape_map_map {A B} (f : A -> B) (h w : nat) (x : list (list A)) :
  shape h w x -> shape h w (map (map f) x).
Proof.
  intros [Hh Hw]. split; [rewrite length_map; exact Hh|].
  apply Forall_map. eapply Forall_impl; [|exact Hw].
  intros row Hrow. simpl. rewrite length_map. exact Hrow.
Qed.

Lemma merge_row_length (w : nat) (c0 c1 c2 : list Z) :
  length c0 = w -> length c1 = w -> length c2 = w ->
  exists row, merge_row c0 c1 c2 = Some row /\ length row = w.
Proof.
  revert c0 c1 c2. induction w as [|w IH]; intros c0 c1 c2 H0 H1 H2.
  - destruct c0, c1, c2; try discriminate. exists []. split; reflexivity.
  - destruct c0 as [|x c0], c1 as [|y c1], c2 as [|z c2]; try discriminate.
    simpl in H0, H1, H2.
    destruct (IH c0 c1 c2) as (row & Hrow & Hlen); try lia.
    exists ((x, y, z) :: row). simpl. rewrite Hrow. simpl.
    split; [reflexivity | lia].
Qed.

Lemma merge_shape (h w : nat) (c0 c1 c2 : plane) :
  shape h w c0 -> shape h w c1 -> shape h w c2 ->
  exists x, merge c0 c1 c2 = Some x /\ shape h w x.
Proof.
  revert c0 c1 c2. induction h as [|h IH]; intros c0 c1 c2 [L0 W0] [L1 W1] [L2 W2].
  - destruct c0, c1, c2; try discriminate.
    exists []. repeat split; constructor.
  - destruct c0 as [|x c0], c1 as [|y c1], c2 as [|z c2]; try discriminate.
    simpl in L0, L1, L2.
    inversion W0 as [|? ? Hx W0']; inversion W1 as [|? ? Hy W1'];
      inversion W2 as [|? ? Hz W2']; subst.
    destruct (merge_row_length (length x) x y z) as (row & Hrow & Hlen);
      try congruence.
    destruct (IH c0 c1 c2) as (rest & Hrest & Hl & Hw);
      try (split; [lia | assumption]).
    exists (row :: rest). simpl. rewrite Hrow, Hrest.
    split; [reflexivity|]. split; [simpl; lia|].
    constructor; assumption.
Qed.

Lemma cast_correct_shape (h w : nat) (result : raster) :
  shape h w result -> shape h w (cast_correct result).
Proof.
  intros H. unfold cast_correct. do 2 apply shape_map_map. exact H.
Qed.

Lemma contrast_enhancement_shape (cv : Library) (h w : nat) (result : raster) :
  keeps_size cv -> shape h w result ->
  exists final_lab,
    contrast_enhancement cv result = Some final_lab /\ shape h w final_lab.
Proof.
  intros Hcv H. unfold contrast_enhancement, split, channel.
  apply merge_shape.
  - apply (CLAHE_size cv Hcv). apply shape_map_map. exact H.
  - apply shape_map_map. exact H.
  - apply shape_map_map. exact H.
Qed.

(** C7. For every raster of h rows and w columns of three-channel pixels,
    h and w nonzero, and every library whose colour conversions and CLAHE
    keep the size of their argument: each stage of the pipeline succeeds
    and yields a raster of h rows and w columns of three-channel pixels
    (red compensation, conversion to the perceptual space, cast
    correction, contrast enhancement), and so does the pipeline as a
    whole. *)
Theorem pipeline_preserves_dimensions (cv : Library) (h w : nat) (image : raster) :
  keeps_size cv ->
  (0 < h)%nat -> (0 < w)%nat ->
  shape h w image ->
  exists image_compensated final_lab final : raster,
    red_channel_compensation image = Some image_compensated /\
    shape h w image_compensated /\
    shape h w (cvtColor_BGR2LAB cv image_compensated) /\
    shape h w (cast_correct (cvtColor_BGR2LAB cv image_compensated)) /\
    contrast_enhancement cv (cast_correct (cvtColor_BGR2LAB cv image_compensated))
      = Some final_lab /\
    shape h w final_lab /\
    preprocess_underwater_image cv image = Some final /\
    shape h w final.
Proof.
  intros Hcv _ _ Himg.
  pose proof (red_channel_compensation_pixelwise image) as Hred.
  set (ic := map (map (fun p : pixel => (chan0 p, chan1 p, r_new (chan2 p) (chan1 p))))
                 image) in *.
  assert (Hic : shape h w ic) by (apply shape_map_map; exact Himg).
  pose proof (BGR2LAB_size cv Hcv h w ic Hic) as Hlab.
  pose proof (cast_correct_shape h w _ Hlab) as Hcast.
  destruct (contrast_enhancement_shape cv h w _ Hcv Hcast) as (fl & Hfl & Hfls).
  exists ic, fl, (cvtColor_LAB2BGR cv fl).
  repeat (split; [assumption|]).
  split.
  - unfold preprocess_underwater_image. rewrite Hred. simpl. rewrite Hfl.
    reflexivity.
  - apply (LAB2BGR_size cv Hcv). exact Hfls.
Qed.

Lemma stand_in_keeps_size : keeps_size stand_in.
Proof.
  split; simpl; intros; assumption.
Qed.

(** C2, evaluated. On [magenta_among_green] the A-plane mean is 65, the
    shifted A value of the magenta pixel is above 255 (about 271.66), and
    the corrector stores 15 there: the value is reduced modulo 256 by the
    cast, where the corrector with the clamp to [0, 255] stores 255.  The
    other values agree. *)
Theorem cast_correct_wraps_out_of_range :
  raster_ok magenta_among_green /\
  Np.mean (channel chan1 magenta_among_green) = 65%float /\
  (255 <? chroma_shift 65 154 226)%float = true /\
  cast_correct magenta_among_green =
    [ [ (154, 15, 19); (224, 108, 142); (224, 108, 142); (224, 108, 142) ];
      [ (224, 108, 142); (224, 108, 142); (224, 108, 142); (224, 108, 142) ] ] /\
  cast_correct_clamped magenta_among_green =
    [ [ (154, 255, 19); (224, 108, 142); (224, 108, 142); (224, 108, 142) ];
      [ (224, 108, 142); (224, 108, 142); (224, 108, 142); (224, 108, 142) ] ].
Proof.
  split; [|repeat split; vm_compute; reflexivity].
  repeat constructor; vm_compute; discriminate.
Qed.

(** C2, evaluated at a raster the pipeline hands to the corrector. On
    [yellow_among_blue] the B-plane mean is 70.75, the shifted B value of
    the yellow pixel is above 255 (about 289.8), and the corrector stores
    33 there, the value reduced modulo 256 by the cast, where the
    corrector with the clamp to [0, 255] stores 255.  The other values
    agree. *)
Theorem cast_correct_wraps_after_compensation :
  raster_ok yellow_among_blue /\
  Np.mean (channel chan2 yellow_among_blue) = 70.75%float /\
  (255 <? chroma_shift 70.75 248 223)%float = true /\
  cast_correct yellow_among_blue =
    [ [ (248, 43, 33); (82, 186, 42); (82, 186, 42); (82, 186, 42) ] ] /\
  cast_correct_clamped yellow_among_blue =
    [ [ (248, 43, 255); (82, 186, 42); (82, 186, 42); (82, 186, 42) ] ].
Proof.
  split; [|repeat split; vm_compute; reflexivity].
  repeat constructor; vm_compute; discriminate.
Qed.

(** The red compensation leaves yellow and blue as they are and turns
    green into yellow. *)
Lemma red_compensation_yellow_blue :
  red_channel_compensation [ [ (0, 255, 255); (255, 0, 0); (0, 255, 0) ] ]
  = Some [ [ (0, 255, 255); (255, 0, 0); (0, 255, 255) ] ].
Proof. vm_compute. reflexivity. Qed.

(** ** Gray-world white balance *)

(** C8. The gray-world scale computation divides by a zero mean, with no
    guard and no policy for it.  There is an input raster (8-bit values,
    one row of two pixels) whose blue channel has mean zero while the
    overall mean is positive: the quotient [avg_gray / avg_b] is taken
    and is infinite, and the blue scale comes out as the cap 4.0.  And
    there is an input raster of the same size whose three channels have
    mean zero: every quotient is 0/0, and the three scales the routine
    computes are NaN, which no rule for a zero mean would produce. *)
Theorem gray_world_divides_by_zero :
  (exists image : raster,
     raster_ok image /\ shape 1 2 image /\
     fst (fst (gray_world_means image)) = 0%float /\
     PrimFloat.is_infinity
       (gray_world_avg_gray image / fst (fst (gray_world_means image)))%float
     = true /\
     fst (fst (gray_world_scales image)) = 4%float) /\
  (exists image : raster,
     raster_ok image /\ shape 1 2 image /\
     gray_world_means image = (0, 0, 0)%float /\
     PrimFloat.is_nan
       (gray_world_avg_gray image / fst (fst (gray_world_means image)))%float
     = true /\
     PrimFloat.is_nan (fst (fst (gray_world_scales image))) = true /\
     PrimFloat.is_nan (snd (fst (gray_world_scales image))) = true /\
     PrimFloat.is_nan (snd (gray_world_scales image)) = true).
Proof.
  split.
  - exists no_blue.
    split; [repeat constructor; vm_compute; discriminate|].
    split; [repeat constructor|].
    repeat split; vm_compute; reflexivity.
  - exists all_black.
    split; [repeat constructor; vm_compute; discriminate|].
    split; [repeat constructor|].
    repeat split; vm_compute; reflexivity.
Qed.

(** On an all-black raster the three means are zero, each quotient is
    0/0, and the three scales are NaN. *)
Lemma gray_world_all_black :
  gray_world_means all_black = (0, 0, 0)%float /\
  let '(scale_b, scale_g, scale_r) := gray_world_scales all_black in
  PrimFloat.is_nan scale_b = true /\
  PrimFloat.is_nan scale_g = true /\
  PrimFloat.is_nan scale_r = true.
Proof. split; [|repeat split]; vm_compute; reflexivity. Qed.

(** ** Entry point *)

Lemma undecodable_run (cv : Library) (image_path : string)
    (save_output : bool) (output_dir : string) :
  imread cv image_path = None ->
  process_image cv image_path save_output output_dir
  = ([ EvPrint (nl ++ "Processing: " ++ image_path);
       EvPrint ("Error: Could not load image from " ++ image_path) ],
     Returned).
Proof.
  intros H. unfold process_image. rewrite H. reflexivity.
Qed.

(** C9, as stated, fails: it is not the case that every undecodable path
    makes the entry point fail with an InvalidImage error.  With the
    stand-in library and a path that does not decode, the call returns. *)
Lemma undecodable_input_not_InvalidImage :
  ~ (forall (cv : Library) (image_path : string) (save_output : bool)
            (output_dir : string),
        imread cv image_path = None ->
        fails_with "InvalidImage"
                   (process_image cv image_path save_output output_dir)).
Proof.
  intros H.
  specialize (H stand_in "missing.jpg"%string false "output"%string eq_refl).
  unfold fails_with in H. vm_compute in H. discriminate H.
Qed.

(** C9, amended. For every input path whose image cannot be decoded, the
    entry point prints the processing line and an error message and
    returns to its caller: no exception reaches the caller, and the core
    pipeline is not invoked. *)
Theorem undecodable_input_reported (cv : Library) (image_path : string)
    (save_output : bool) (output_dir : string) :
  imread cv image_path = None ->
  let run := process_image cv image_path save_output output_dir in
  fst run = [ EvPrint (nl ++ "Processing: " ++ image_path);
              EvPrint ("Error: Could not load image from " ++ image_path) ] /\
  snd run = Returned /\
  (forall name, ~ fails_with name run) /\
  ~ core_invoked run.
Proof.
  intros H run. unfold run. rewrite (undecodable_run cv _ _ _ H).
  split; [reflexivity|]. split; [reflexivity|]. split.
  - intros name Hf. unfold fails_with in Hf. discriminate Hf.
  - intros [image Hin]. simpl in Hin.
    destruct Hin as [Hin|[Hin|[]]]; discriminate Hin.
Qed.

(** ** Binary64 facts: conversion of a count, division by zero

    These go through the specification of the primitive operations
    ([FloatAxioms]): the conversion of a positive integer is a positive
    number, zero divided by a positive number is zero, and a quotient by
    zero is never finite. *)

Lemma shr_1_m (mrs : shr_record) :
  0 <= shr_m mrs -> shr_m (shr_1 mrs) = shr_m mrs / 2.
Proof.
  destruct mrs as [m r s]. simpl. intros Hm.
  destruct m as [|p|p]; [reflexivity| |lia].
  destruct p as [p|p|]; simpl.
  - rewrite Pos2Z.inj_xI. apply Z.div_unique with (r := 1); lia.
  - rewrite Pos2Z.inj_xO. apply Z.div_unique with (r := 0); lia.
  - reflexivity.
Qed.

Lemma pow2_xO (p : positive) : 2 ^ Zpos p~0 = 2 ^ Zpos p * 2 ^ Zpos p.
Proof. rewrite <- Z.pow_add_r by lia. f_equal. lia. Qed.

Lemma pow2_xI (p : positive) : 2 ^ Zpos p~1 = 2 * (2 ^ Zpos p * 2 ^ Zpos p).
Proof.
  rewrite <- Z.pow_add_r by lia. rewrite <- Z.pow_succ_r by lia. f_equal. lia.
Qed.

Lemma iter_pos_shr_1_m (p : positive) : forall mrs,
  0 <= shr_m mrs ->
  shr_m (iter_pos shr_1 p mrs) = shr_m mrs / 2 ^ Zpos p.
Proof.
  induction p as [p IH|p IH|]; intros mrs Hm; simpl iter_pos.
  - assert (Hp : 0 < 2 ^ Zpos p) by (apply Z.pow_pos_nonneg; lia).
    assert (H1 : 0 <= shr_m (shr_1 mrs)).
    { rewrite shr_1_m by exact Hm. apply Z.div_pos; lia. }
    assert (H2 : 0 <= shr_m (iter_pos shr_1 p (shr_1 mrs))).
    { rewrite IH by exact H1. apply Z.div_pos; lia. }
    rewrite IH by exact H2. rewrite IH by exact H1. rewrite shr_1_m by exact Hm.
    rewrite pow2_xI. rewrite !Z.div_div by lia. reflexivity.
  - assert (Hp : 0 < 2 ^ Zpos p) by (apply Z.pow_pos_nonneg; lia).
    assert (H2 : 0 <= shr_m (iter_pos shr_1 p mrs)).
    { rewrite IH by exact Hm. apply Z.div_pos; lia. }
    rewrite IH by exact H2. rewrite IH by exact Hm.
    rewrite pow2_xO. rewrite Z.div_div by lia. reflexivity.
  - rewrite shr_1_m by exact Hm. reflexivity.
Qed.

Lemma digits2_pos_lower (p : positive) :
  2 ^ (Zpos (digits2_pos p) - 1) <= Zpos p.
Proof.
  induction p as [p IH|p IH|]; simpl digits2_pos.
  - rewrite Pos2Z.inj_succ.
    replace (Z.succ (Zpos (digits2_pos p)) - 1)
      with (1 + (Zpos (digits2_pos p) - 1)) by lia.
    rewrite Z.pow_add_r by lia. rewrite Z.pow_1_r. lia.
  - rewrite Pos2Z.inj_succ.
    replace (Z.succ (Zpos (digits2_pos p)) - 1)
      with (1 + (Zpos (digits2_pos p) - 1)) by lia.
    rewrite Z.pow_add_r by lia. rewrite Z.pow_1_r. lia.
  - simpl. lia.
Qed.

Lemma shr_record_of_loc_m m l : shr_m (shr_record_of_loc m l) = m.
Proof. destruct l as [|[]]; reflexivity. Qed.

Lemma shr_fexp_pos (m e : Z) (l : location) :
  0 < m -> emin <= e ->
  0 < shr_m (fst (shr_fexp prec emax m e l)) /\
  emin <= snd (shr_fexp prec emax m e l).
Proof.
  intros Hm He. unfold shr_fexp, shr.
  destruct m as [|p|p]; try lia. simpl Zdigits2.
  set (D := Zpos (digits2_pos p)).
  destruct (fexp prec emax (D + e) - e) as [|k|k] eqn:Hn; simpl fst; simpl snd;
    rewrite ?shr_record_of_loc_m; try (split; lia).
  rewrite iter_pos_shr_1_m by (rewrite shr_record_of_loc_m; lia).
  rewrite shr_record_of_loc_m.
  unfold fexp, SpecFloat.emin, prec, emax in *. 
  assert (Hk : Zpos k <= D - 1) by lia.
  split; [|lia].
  pose proof (digits2_pos_lower p) as Hlow. fold D in Hlow.
  apply Z.div_str_pos. split; [apply Z.pow_pos_nonneg; lia|].
  eapply Z.le_trans; [|exact Hlow].
  apply Z.pow_le_mono_r; lia.
Qed.

Lemma round_nearest_even_ge m l : m <= round_nearest_even m l.
Proof.
  destruct l as [|[]]; simpl; try lia.
  destruct (Z.even m); lia.
Qed.

Lemma binary_round_aux_positive (m e : Z) (l : location) :
  0 < m -> emin <= e ->
  SFpositive (binary_round_aux prec emax false m e l).
Proof.
  intros Hm He. unfold binary_round_aux.
  pose proof (shr_fexp_pos m e l Hm He) as [H1 H2].
  destruct (shr_fexp prec emax m e l) as [mrs' e']. simpl in H1, H2.
  pose proof (round_nearest_even_ge (shr_m mrs') (loc_of_shr_record mrs')) as Hr.
  pose proof (shr_fexp_pos
                (round_nearest_even (shr_m mrs') (loc_of_shr_record mrs'))
                e' loc_Exact ltac:(lia) H2) as [H3 H4].
  destruct (shr_fexp prec emax _ e' loc_Exact) as [mrs'' e'']. simpl in H3, H4.
  destruct (shr_m mrs'') as [|q|q]; try lia.
  destruct (e'' <=? emax - prec); exact I.
Qed.

Lemma binary_normalize_positive (n : Z) :
  0 < n -> SFpositive (binary_normalize prec emax n 0 false).
Proof.
  intros Hn. destruct n as [|p|p]; try lia.
  unfold binary_normalize, binary_round, shl_align.
  set (ex' := fexp prec emax (Zpos (digits2_pos p) + 0)).
  assert (Hex : emin <= ex') by (unfold ex', fexp, SpecFloat.emin, prec, emax; lia).
  destruct (ex' - 0) as [|d|d]; apply binary_round_aux_positive;
    try reflexivity; try exact Hex; unfold SpecFloat.emin, prec, emax; lia.
Qed.

Lemma of_uint63_positive (n : Z) :
  0 < n < 2 ^ 63 ->
  SFpositive (Prim2SF (PrimFloat.of_uint63 (Uint63.of_Z n))).
Proof.
  intros Hn. rewrite FloatAxioms.of_uint63_spec.
  rewrite Uint63.of_Z_spec. rewrite Z.mod_small by (unfold wB; simpl; lia).
  apply binary_normalize_positive. lia.
Qed.

Lemma zero_div_positive (y : float) :
  SFpositive (Prim2SF y) -> (0 / y)%float = 0%float.
Proof.
  intros Hy. apply Prim2SF_inj. rewrite FloatAxioms.div_spec.
  change (Prim2SF 0) with (S754_zero false).
  destruct (Prim2SF y) as [s|s| |s m e]; simpl in Hy; try contradiction;
    destruct s; try contradiction; reflexivity.
Qed.

Lemma div_by_zero_not_finite (x : float) :
  PrimFloat.is_finite (x / 0)%float = false.
Proof.
  unfold PrimFloat.is_finite, PrimFloat.is_nan, PrimFloat.is_infinity.
  rewrite !FloatAxioms.eqb_spec, FloatAxioms.abs_spec, FloatAxioms.div_spec.
  change (Prim2SF 0) with (S754_zero false).
  change (Prim2SF infinity) with (S754_infinity false).
  destruct (Prim2SF x) as [s|s| |s m e]; try destruct s; reflexivity.
Qed.

(** ** Statistics reporter *)

Lemma sum_all_zero (gray : plane) :
  Forall (Forall (fun v => v = 0)) gray -> Np.sum gray = 0.
Proof.
  unfold Np.sum. induction 1 as [|row gray Hrow _ IH]; [reflexivity|].
  simpl. rewrite fold_right_app, IH.
  induction Hrow as [|v row Hv _ IHrow]; simpl; lia.
Qed.

Lemma mean_all_zero (gray : plane) :
  0 < Np.size gray < 2 ^ 63 ->
  Forall (Forall (fun v => v = 0)) gray ->
  Np.mean gray = 0%float.
Proof.
  intros Hsize Hzero. unfold Np.mean. rewrite (sum_all_zero gray Hzero).
  change (Np.astype_float 0) with 0%float.
  apply zero_div_positive. apply of_uint63_positive. exact Hsize.
Qed.

(** C10. The contrast figure is the standard deviation divided by the
    mean of the grayscale raster, with no guard: for every image whose
    grayscale raster is not empty and holds 0 everywhere, the mean is
    zero, the contrast is the quotient of the standard deviation by that
    zero, and it is never a finite number (it is NaN when the standard
    deviation is zero). *)
Theorem contrast_divides_by_zero_on_black (cv : Library) (image : raster) :
  let gray := cvtColor_BGR2GRAY cv image in
  0 < Np.size gray < 2 ^ 63 ->
  Forall (Forall (fun v => v = 0)) gray ->
  st_mean (get_image_statistics cv image) = 0%float /\
  st_contrast (get_image_statistics cv image) = (np_std cv gray / 0)%float /\
  PrimFloat.is_finite (st_contrast (get_image_statistics cv image)) = false /\
  (np_std cv gray = 0%float ->
   PrimFloat.is_nan (st_contrast (get_image_statistics cv image)) = true).
Proof.
  intros gray Hsize Hzero. unfold get_image_statistics. simpl.
  fold gray. rewrite (mean_all_zero gray Hsize Hzero).
  split; [reflexivity|]. split; [reflexivity|].
  split; [apply div_by_zero_not_finite|].
  intros Hstd. rewrite Hstd. vm_compute. reflexivity.
Qed.

(** ** The statements at concrete inputs *)

Lemma red_compensation_refines_spec_witness :
  raster_ok reef_sample /\
  red_channel_compensation reef_sample
  = Some [ [ (200, 50, 17); (128, 128, 128) ]; [ (90, 12, 0); (30, 40, 249) ] ].
Proof.
  assert (Hok : raster_ok reef_sample)
    by (repeat constructor; vm_compute; discriminate).
  split; [exact Hok|].
  rewrite (red_compensation_refines_spec reef_sample Hok).
  vm_compute. reflexivity.
Defined.

Lemma red_compensation_monotone_witness :
  (10 <= 50 ->
     10 <= r_new 10 50 /\
     ((Np.astype_float 10 / 255) <=? compensated_r 10 50)%float = true) /\
  (50 < 10 ->
     r_new 10 50 <= 10 /\
     (compensated_r 10 50 <=? (Np.astype_float 10 / 255))%float = true).
Proof.
  apply (red_compensation_monotone 10 50); unfold uint8; lia.
Defined.

Lemma cast_correct_neutral_identity_witness :
  raster_ok neutral_sample /\
  Np.mean (channel chan1 neutral_sample) = 128%float /\
  Np.mean (channel chan2 neutral_sample) = 128%float /\
  cast_correct neutral_sample = neutral_sample.
Proof.
  assert (Hok : raster_ok neutral_sample)
    by (repeat constructor; vm_compute; discriminate).
  assert (Ha : Np.mean (channel chan1 neutral_sample) = 128%float)
    by (vm_compute; reflexivity).
  assert (Hb : Np.mean (channel chan2 neutral_sample) = 128%float)
    by (vm_compute; reflexivity).
  repeat (split; [assumption|]).
  exact (cast_correct_neutral_identity neutral_sample Hok Ha Hb).
Defined.

Lemma pipeline_preserves_dimensions_witness :
  shape 1 2 no_blue /\
  exists image_compensated final_lab final : raster,
    red_channel_compensation no_blue = Some image_compensated /\
    shape 1 2 image_compensated /\
    shape 1 2 (cvtColor_BGR2LAB stand_in image_compensated) /\
    shape 1 2 (cast_correct (cvtColor_BGR2LAB stand_in image_compensated)) /\
    contrast_enhancement stand_in
      (cast_correct (cvtColor_BGR2LAB stand_in image_compensated))
      = Some final_lab /\
    shape 1 2 final_lab /\
    preprocess_underwater_image stand_in no_blue = Some final /\
    shape 1 2 final.
Proof.
  assert (Hs : shape 1 2 no_blue) by (repeat constructor).
  split; [exact Hs|].
  apply (pipeline_preserves_dimensions stand_in 1 2 no_blue stand_in_keeps_size);
    [lia | lia | exact Hs].
Defined.

Lemma undecodable_input_reported_witness :
  imread stand_in "missing.jpg" = None /\
  let run := process_image stand_in "missing.jpg" false "output" in
  fst run = [ EvPrint (nl ++ "Processing: " ++ "missing.jpg");
              EvPrint ("Error: Could not load image from " ++ "missing.jpg") ] /\
  snd run = Returned /\
  (forall name, ~ fails_with name run) /\
  ~ core_invoked run.
Proof.
  split; [reflexivity|].
  apply (undecodable_input_reported stand_in "missing.jpg" false "output").
  reflexivity.
Defined.

Lemma contrast_divides_by_zero_on_black_witness :
  cvtColor_BGR2GRAY stand_in all_black = [ [0; 0] ] /\
  st_mean (get_image_statistics stand_in all_black) = 0%float /\
  st_contrast (get_image_statistics stand_in all_black)
  = (np_std stand_in [ [0%Z; 0%Z] ] / 0)%float /\
  PrimFloat.is_finite (st_contrast (get_image_statistics stand_in all_black))
  = false /\
  (np_std stand_in [ [0; 0] ] = 0%float ->
   PrimFloat.is_nan (st_contrast (get_image_statistics stand_in all_black)) = true).
Proof.
  split; [reflexivity|].
  apply (contrast_divides_by_zero_on_black stand_in all_black).
  - vm_compute. split; reflexivity.
  - repeat constructor.
Defined.

(** * Further properties of the code *)

(** ** Red channel compensation: bounds and fixed points *)

Lemma new_red_int_between (r g : Z) :
  uint8 r -> uint8 g ->
  Z.min r g <= new_red_int r g <= Z.max r g.
Proof.
  unfold uint8, new_red_int, scaled_numerator. intros Hr Hg.
  set (d := (g - r) * (255 - r) * g).
  assert (Hd : (r <= g -> 0 <= d <= (g - r) * 65025) /\
               (g <= r -> (g - r) * 65025 <= d <= 0)).
  { unfold d. split; intros H.
    - assert (0 <= (255 - r) * g <= 65025) by nia. nia.
    - assert (0 <= (255 - r) * g <= 65025) by nia. nia. }
  destruct Hd as [Hd1 Hd2].
  destruct (Z.leb_spec (r * 65025 + d) 0) as [Hn|Hn].
  - destruct (Z.le_ge_cases r g) as [Hrg|Hrg]; [specialize (Hd1 Hrg)|specialize (Hd2 Hrg)]; lia.
  - destruct (Z.leb_spec (255 * 65025) (r * 65025 + d)) as [Hm|Hm].
    + destruct (Z.le_ge_cases r g) as [Hrg|Hrg]; [specialize (Hd1 Hrg)|specialize (Hd2 Hrg)]; lia.
    + destruct (Z.le_ge_cases r g) as [Hrg|Hrg];
        [specialize (Hd1 Hrg)|specialize (Hd2 Hrg)].
      * split.
        -- rewrite Z.min_l by lia. apply Z.div_le_lower_bound; lia.
        -- rewrite Z.max_r by lia. apply Z.div_le_upper_bound; lia.
      * split.
        -- rewrite Z.min_r by lia. apply Z.div_le_lower_bound; lia.
        -- rewrite Z.max_l by lia. apply Z.div_le_upper_bound; lia.
Qed.

(** X1. The compensated red value of a pixel always lies between its
    original red value and its green value (both included), so it is an
    8-bit value and the red channel is never pushed past green. *)
Theorem r_new_between_red_and_green (r g : Z) :
  uint8 r -> uint8 g ->
  Z.min r g <= r_new r g <= Z.max r g.
Proof.
  intros Hr Hg. rewrite (r_new_exact r g Hr Hg), new_red_as_int.
  apply new_red_int_between; assumption.
Qed.

Lemma r_new_fixed (r g : Z) :
  uint8 r -> uint8 g ->
  r = g \/ g = 0 \/ r = 255 ->
  r_new r g = r.
Proof.
  intros Hr Hg Hcase. rewrite (r_new_exact r g Hr Hg), new_red_as_int.
  unfold uint8 in *. unfold new_red_int, scaled_numerator.
  assert (Hn : (g - r) * (255 - r) * g = 0).
  { destruct Hcase as [->|[->| ->]]; ring. }
  rewrite Hn, Z.add_0_r.
  destruct (Z.leb_spec (r * 65025) 0); [lia|].
  destruct (Z.leb_spec (255 * 65025) (r * 65025)); [lia|].
  apply Z.div_mul. lia.
Qed.

(** X2. On a raster of 8-bit values in which every pixel has red equal
    to green, or no green at all, or saturated red, the red channel
    compensation returns the raster unchanged. *)
Theorem red_compensation_fixed_points (image : raster) :
  raster_ok image ->
  Forall (Forall (fun p : pixel =>
            chan2 p = chan1 p \/ chan1 p = 0 \/ chan2 p = 255)) image ->
  red_channel_compensation image = Some image.
Proof.
  intros Hok Hfix. rewrite red_channel_compensation_pixelwise.
  apply f_equal.
  rewrite <- (map_id image) at 2.
  apply map_ext_in. intros row Hrow.
  rewrite <- (map_id row) at 2.
  apply map_ext_in. intros p Hp.
  unfold raster_ok in Hok. rewrite Forall_forall in Hok, Hfix.
  specialize (Hok row Hrow). specialize (Hfix row Hrow).
  rewrite Forall_forall in Hok, Hfix.
  destruct (Hok p Hp) as (H0 & H1 & H2). specialize (Hfix p Hp).
  destruct p as [[b g] r]. unfold chan0, chan1, chan2 in *. simpl in *.
  rewrite r_new_fixed by assumption. reflexivity.
Qed.

(** X3. Red channel compensation keeps the size and the range: on every
    raster of h rows and w columns of 8-bit values, h and w nonzero, it
    succeeds and returns a raster of h rows and w columns of 8-bit
    values. *)
Theorem red_compensation_keeps_range (h w : nat) (image : raster) :
  (0 < h)%nat -> (0 < w)%nat ->
  shape h w image ->
  raster_ok image ->
  exists out,
    red_channel_compensation image = Some out /\
    shape h w out /\ raster_ok out.
Proof.
  intros _ _ Hs Hok. rewrite red_channel_compensation_pixelwise.
  eexists. split; [reflexivity|].
  split; [apply shape_map_map; exact Hs|].
  unfold raster_ok in *. apply Forall_map.
  eapply Forall_impl; [|exact Hok]. intros row Hrow. simpl.
  apply Forall_map. eapply Forall_impl; [|exact Hrow].
  intros p (H0 & H1 & H2). simpl.
  assert (Hb : Z.min (chan2 p) (chan1 p) <= r_new (chan2 p) (chan1 p)
               <= Z.max (chan2 p) (chan1 p)).
  { rewrite (r_new_exact _ _ H2 H1), new_red_as_int.
    apply new_red_int_between; assumption. }
  repeat split; unfold chan0, chan1, chan2; simpl; try apply H0; try apply H1;
    unfold uint8 in *; unfold chan1, chan2 in *; lia.
Qed.

(** ** Binary64 facts: comparisons *)

Lemma SFcompare_antisym (a b : spec_float) :
  SFcompare b a = option_map CompOpp (SFcompare a b).
Proof.
  destruct a as [sa|sa| |sa ma ea], b as [sb|sb| |sb mb eb];
    try destruct sa; try destruct sb; try reflexivity; simpl;
    rewrite (Z.compare_antisym ea eb);
    destruct (ea ?= eb)%Z; simpl; try reflexivity;
    rewrite (ZC4 mb ma); try reflexivity;
    rewrite CompOpp_involutive; reflexivity.
Qed.

Lemma leb_not_ltb (x y : float) :
  (x <=? y)%float = true -> (y <? x)%float = false.
Proof.
  rewrite FloatAxioms.leb_spec, FloatAxioms.ltb_spec.
  unfold SFleb, SFltb. rewrite (SFcompare_antisym (Prim2SF x) (Prim2SF y)).
  destruct (SFcompare (Prim2SF x) (Prim2SF y)) as [[| |]|];
    simpl; intros H; try reflexivity; discriminate H.
Qed.

Lemma SFcompare_refl (a : spec_float) :
  a <> S754_nan -> SFcompare a a = Some Eq.
Proof.
  destruct a as [s|s| |s m e]; intros H; try (destruct s; reflexivity).
  - contradiction H; reflexivity.
  - simpl. rewrite Z.compare_refl, Pos.compare_cont_refl.
    destruct s; reflexivity.
Qed.

Lemma leb_not_nan_r (x y : float) :
  (x <=? y)%float = true -> PrimFloat.is_nan y = false.
Proof.
  unfold PrimFloat.is_nan.
  rewrite FloatAxioms.leb_spec, FloatAxioms.eqb_spec. unfold SFleb, SFeqb.
  intros H. rewrite SFcompare_refl; [reflexivity|].
  intros Hnan. rewrite Hnan in H.
  destruct (Prim2SF x); simpl in H; discriminate H.
Qed.

(** [np.clip] returns a value of the interval as it is. *)
Lemma clip_in_range (x : float) :
  (0 <=? x)%float = true -> (x <=? 255)%float = true ->
  Np.clip x 0 255 = x.
Proof.
  intros Hlo Hhi. unfold Np.clip, Np.maximum, Np.minimum.
  rewrite (leb_not_nan_r 0 x Hlo).
  change (PrimFloat.is_nan 0) with false. cbv iota.
  rewrite (leb_not_ltb 0 x Hlo).
  rewrite (leb_not_nan_r 0 x Hlo).
  change (PrimFloat.is_nan 255) with false. cbv iota.
  rewrite (leb_not_ltb x 255 Hhi). reflexivity.
Qed.

(** ** Chromatic cast correction: what it keeps *)

(** X4. The cast corrector never changes the luminance plane, whatever
    the raster. *)
Theorem cast_correct_keeps_luminance (result : raster) :
  channel chan0 (cast_correct result) = channel chan0 result.
Proof.
  unfold cast_correct, channel. rewrite !map_map.
  apply map_ext. intros row. rewrite !map_map.
  apply map_ext. intros p. reflexivity.
Qed.

(** X5. When every shifted A and B value of a perceptual raster lies in
    [0, 255], the corrector stores exactly what the corrector with the
    clamp would store: the missing clamp matters only for shifted values
    outside the range. *)
Theorem cast_correct_clamped_in_range (result : raster) :
  shifts_in_range result ->
  cast_correct result = cast_correct_clamped result.
Proof.
  unfold shifts_in_range, cast_correct, cast_correct_clamped.
  set (avg_a := Np.mean (channel chan1 result)).
  set (avg_b := Np.mean (channel chan2 result)).
  intros Hin. rewrite map_map.
  apply map_ext_in. intros row Hrow. rewrite map_map.
  apply map_ext_in. intros p Hp.
  rewrite Forall_forall in Hin. specialize (Hin row Hrow).
  rewrite Forall_forall in Hin. destruct (Hin p Hp) as [[Ha1 Ha2] [Hb1 Hb2]].
  destruct p as [[l a] b]. unfold chan0, chan1, chan2 in *. simpl in *.
  unfold chroma_store_clamped, chroma_store.
  rewrite (clip_in_range _ Ha1 Ha2), (clip_in_range _ Hb1 Hb2). reflexivity.
Qed.

(** ** Channel planes: round trip *)

Lemma merge_row_split (c0 c1 c2 : list Z) (row : list pixel) :
  merge_row c0 c1 c2 = Some row ->
  map chan0 row = c0 /\ map chan1 row = c1 /\ map chan2 row = c2.
Proof.
  revert c1 c2 row. induction c0 as [|x c0 IH]; intros c1 c2 row H;
    destruct c1 as [|y c1], c2 as [|z c2]; simpl in H; try discriminate H.
  - inversion H; subst. repeat split.
  - destruct (merge_row c0 c1 c2) as [rest|] eqn:E; simpl in H;
      [|discriminate H].
    inversion H; subst. destruct (IH c1 c2 rest E) as (H0 & H1 & H2).
    simpl. unfold chan0, chan1, chan2 in *. simpl.
    rewrite H0, H1, H2. repeat split.
Qed.

Lemma merge_split (c0 c1 c2 : plane) (x : raster) :
  merge c0 c1 c2 = Some x -> split x = (c0, c1, c2).
Proof.
  revert c1 c2 x. induction c0 as [|r0 c0 IH]; intros c1 c2 x H;
    destruct c1 as [|r1 c1], c2 as [|r2 c2]; simpl in H; try discriminate H.
  - inversion H; subst. reflexivity.
  - destruct (merge_row r0 r1 r2) as [row|] eqn:Erow; [|discriminate H].
    destruct (merge c0 c1 c2) as [rest|] eqn:Erest; [|discriminate H].
    inversion H; subst.
    destruct (merge_row_split _ _ _ _ Erow) as (H0 & H1 & H2).
    specialize (IH c1 c2 rest Erest). unfold split, channel in *.
    injection IH as I0 I1 I2. simpl. congruence.
Qed.

(** X6. Splitting and merging are inverse to each other: three planes
    merge into a raster exactly when they are the three channel planes of
    that raster.  In particular merging the planes of a raster gives the
    raster back, and a merge of planes of different sizes fails. *)
Theorem merge_iff_split (c0 c1 c2 : plane) (x : raster) :
  merge c0 c1 c2 = Some x <-> split x = (c0, c1, c2).
Proof.
  split; [apply merge_split|].
  unfold split, channel. intros H. injection H as H0 H1 H2. subst.
  rewrite merge_map. apply f_equal.
  rewrite <- (map_id x) at 2. apply map_ext. intros row.
  rewrite <- (map_id row) at 2. apply map_ext. intros [[a b] c]. reflexivity.
Qed.

(** X7. The contrast stage touches the luminance only: for a library
    whose CLAHE keeps the size, it succeeds on every h x w perceptual
    raster, the L plane of its result is the CLAHE output on the L plane
    (clip limit 0.5, grid 8 x 8) and the A and B planes are those of its
    argument. *)
Theorem contrast_enhancement_luminance_only
    (cv : Library) (h w : nat) (result : raster) :
  keeps_size cv -> shape h w result ->
  exists final_lab,
    contrast_enhancement cv result = Some final_lab /\
    channel chan0 final_lab
    = CLAHE_apply cv 0.5%float (8%nat, 8%nat) (channel chan0 result) /\
    channel chan1 final_lab = channel chan1 result /\
    channel chan2 final_lab = channel chan2 result.
Proof.
  intros Hcv Hs.
  destruct (contrast_enhancement_shape cv h w result Hcv Hs) as (fl & Hfl & _).
  exists fl. split; [exact Hfl|].
  unfold contrast_enhancement, split in Hfl.
  apply merge_split in Hfl. unfold split in Hfl.
  injection Hfl as H0 H1 H2. repeat split; assumption.
Qed.

(** ** Side-by-side comparison *)

Lemma hstack_shape (h w1 w2 : nat) (a b : raster) :
  shape h w1 a -> shape h w2 b ->
  exists c, hstack a b = Some c /\ shape h (w1 + w2) c.
Proof.
  intros [La Wa] [Lb Wb]. unfold hstack.
  assert (E : Nat.eqb (length a) (length b) = true)
    by (apply Nat.eqb_eq; congruence).
  rewrite E. eexists. split; [reflexivity|].
  clear E. revert h b La Lb Wb. induction Wa as [|ra a Hra Wa IH];
    intros h b La Lb Wb.
  - simpl in *. split; [exact La | constructor].
  - destruct b as [|rb b]; [simpl in *; congruence|].
    inversion Wb as [|? ? Hrb Wb']; subst. simpl in Lb.
    destruct (IH (length a) b eq_refl ltac:(lia) Wb') as [Hl Hw].
    split; [simpl; rewrite Hl; reflexivity|].
    simpl. constructor; [rewrite length_app; lia | exact Hw].
Qed.

(** X8. For a library whose [putText] draws in place, the comparison of
    two rasters of the same height h and of widths w1 and w2 exists and
    has height h and width w1 + w2 (twice the width for an original and
    its enhancement). *)
Theorem comparison_is_side_by_side
    (cv : Library) (h w1 w2 : nat) (original enhanced : raster) :
  draws_in_place cv ->
  shape h w1 original -> shape h w2 enhanced ->
  exists comparison,
    visualize_preprocessing_comparison cv original enhanced = Some comparison /\
    shape h (w1 + w2) comparison.
Proof.
  intros Hput Ho He. unfold visualize_preprocessing_comparison.
  destruct (hstack_shape h w1 w2 original enhanced Ho He) as (c & Hc & Hs).
  rewrite Hc. simpl. eexists. split; [reflexivity|].
  apply Hput. apply Hput. exact Hs.
Qed.


(** The comparison fails (NumPy's [hstack] raises) exactly when the two
    rasters differ in height, whatever the library. *)
Theorem comparison_fails_iff_heights_differ
    (cv : Library) (original enhanced : raster) :
  visualize_preprocessing_comparison cv original enhanced = None
  <-> length original <> length enhanced.
Proof.
  unfold visualize_preprocessing_comparison, hstack.
  destruct (Nat.eqb_spec (length original) (length enhanced)) as [E|E]; simpl.
  - split; [intros H; discriminate H | intros H; contradiction].
  - split; [intros _; exact E | reflexivity].
Qed.

(** ** Entry point: what a run does *)

Lemma preprocess_succeeds (cv : Library) (h w : nat) (image : raster) :
  keeps_size cv -> shape h w image ->
  exists final,
    preprocess_underwater_image cv image = Some final /\ shape h w final.
Proof.
  intros Hcv Himg. unfold preprocess_underwater_image.
  rewrite red_channel_compensation_pixelwise. simpl.
  set (ic := map (map (fun p : pixel => (chan0 p, chan1 p, r_new (chan2 p) (chan1 p))))
                 image).
  assert (Hic : shape h w ic) by (apply shape_map_map; exact Himg).
  pose proof (cast_correct_shape h w _ (BGR2LAB_size cv Hcv h w ic Hic)) as Hcast.
  destruct (contrast_enhancement_shape cv h w _ Hcv Hcast) as (fl & Hfl & Hfls).
  rewrite Hfl. simpl. eexists. split; [reflexivity|].
  apply (LAB2BGR_size cv Hcv). exact Hfls.
Qed.

(** Case analysis on the outcome of every call of the outside world that
    is left in the goal. *)
Ltac resolve_calls :=
  repeat (simpl; match goal with
                 | |- context [call ?r _ _] => destruct r
                 end).

(** X9. In every run the core is called exactly once, on the decoded
    raster, when the path decodes, and not at all otherwise; this holds
    for every library, both modes, and also when a later step raises. *)
Theorem core_called_once_on_decoded_raster
    (cv : Library) (image_path : string) (save_output : bool)
    (output_dir : string) :
  core_calls (fst (process_image cv image_path save_output output_dir))
  = match imread cv image_path with
    | Some original => [original]
    | None => []
    end.
Proof.
  unfold process_image.
  destruct (imread cv image_path) as [original|]; [|reflexivity].
  destruct (preprocess_underwater_image cv original) as [enhanced|];
    [|reflexivity].
  destruct save_output;
    destruct (visualize_preprocessing_comparison cv original enhanced);
    unfold save_and_report, show_and_wait; resolve_calls; reflexivity.
Qed.

(** X10. A run in display mode never creates a directory or writes a
    file, and a run in save mode never opens a window or waits for a key,
    whatever the library and the input. *)
Theorem modes_are_exclusive
    (cv : Library) (image_path output_dir : string) :
  existsb touches_disk (fst (process_image cv image_path false output_dir)) = false /\
  existsb uses_window (fst (process_image cv image_path true output_dir)) = false.
Proof.
  unfold process_image.
  destruct (imread cv image_path) as [original|]; [|split; reflexivity].
  destruct (preprocess_underwater_image cv original) as [enhanced|];
    [|split; reflexivity].
  destruct (visualize_preprocessing_comparison cv original enhanced);
    split; unfold save_and_report, show_and_wait; resolve_calls; reflexivity.
Qed.


(** X15. When the output directory cannot be made ([os.makedirs] raises,
    as it does when the name is that of a file), a run in save mode on a
    decodable h x w raster ends with that exception at the caller: the
    core has been called and both statistics printed, and no file is
    written. *)
Theorem makedirs_failure_reaches_caller
    (cv : Library) (h w : nat) (image_path output_dir : string)
    (original : raster) (exception : string) :
  keeps_size cv ->
  imread cv image_path = Some original ->
  shape h w original ->
  os_makedirs cv output_dir = Some exception ->
  let run := process_image cv image_path true output_dir in
  snd run = Raised exception /\
  imwrites (fst run) = [] /\
  core_calls (fst run) = [original] /\
  exists enhanced,
    preprocess_underwater_image cv original = Some enhanced /\
    fst run = [ EvPrint (nl ++ "Processing: " ++ image_path);
                EvPrintSize (width original) (height original);
                EvPrintStats "Original" (get_image_statistics cv original);
                EvCore original;
                EvPrintStats "Enhanced" (get_image_statistics cv enhanced) ].
Proof.
  intros Hcv Hread Hs Hmk run.
  destruct (preprocess_succeeds cv h w original Hcv Hs) as (enhanced & Hpre & _).
  unfold run, process_image. rewrite Hread, Hpre, Hmk.
  repeat split; try reflexivity.
  exists enhanced. split; reflexivity.
Qed.


(** ** Gray-world white balance: degenerate means *)

Lemma div_pos_by_zero (x : float) :
  (0 <? x)%float = true -> (x / 0)%float = infinity.
Proof.
  intros Hx. apply Prim2SF_inj. rewrite FloatAxioms.div_spec.
  rewrite FloatAxioms.ltb_spec in Hx.
  change (Prim2SF 0) with (S754_zero false) in *.
  change (Prim2SF infinity) with (S754_infinity false).
  destruct (Prim2SF x) as [s|s| |s m e]; try destruct s;
    simpl in Hx; try discriminate Hx; reflexivity.
Qed.

Lemma capped_scale_of_zero_mean (x : float) :
  (0 <? x)%float = true -> py_min (x / 0) 4 = 4%float.
Proof.
  intros Hx. rewrite (div_pos_by_zero x Hx). vm_compute. reflexivity.
Qed.

(** X12. In the gray-world scale computation, a channel whose mean is
    zero in an image whose overall mean [avg_gray] is positive always
    gets the scale 4.0, the cap: the quotient by zero is plus infinity
    and [min] brings it down to the cap. *)
Theorem zero_mean_channel_gets_cap (image : raster) :
  (0 <? gray_world_avg_gray image)%float = true ->
  (fst (fst (gray_world_means image)) = 0%float ->
   fst (fst (gray_world_scales image)) = 4%float) /\
  (snd (fst (gray_world_means image)) = 0%float ->
   snd (fst (gray_world_scales image)) = 4%float) /\
  (snd (gray_world_means image) = 0%float ->
   snd (gray_world_scales image) = 4%float).
Proof.
  unfold gray_world_avg_gray, gray_world_scales, gray_world_means. simpl.
  intros Hpos. repeat split; intros H0; rewrite H0 in *;
    apply capped_scale_of_zero_mean; exact Hpos.
Qed.

Lemma channel_size (k : pixel -> Z) (image : raster) :
  Np.size (channel k image) = Np.size image.
Proof.
  unfold Np.size, channel. rewrite <- concat_map, length_map. reflexivity.
Qed.

Lemma channel_all_zero (k : pixel -> Z) (image : raster) :
  k (0, 0, 0) = 0 ->
  Forall (Forall (fun p : pixel => p = (0, 0, 0))) image ->
  Forall (Forall (fun v => v = 0)) (channel k image).
Proof.
  intros Hk H. unfold channel. apply Forall_map.
  eapply Forall_impl; [|exact H]. intros row Hrow. simpl.
  apply Forall_map. eapply Forall_impl; [|exact Hrow].
  intros p Hp. simpl. rewrite Hp. exact Hk.
Qed.

(** X13. On an all-black raster of any size (not empty, fewer than 2^63
    pixels) the three channel means are zero, every quotient is 0/0, and
    the three gray-world scales are NaN: Python's [min] does not replace
    a NaN by the cap. *)
Theorem gray_world_all_black_any_size (image : raster) :
  0 < Np.size image < 2 ^ 63 ->
  Forall (Forall (fun p : pixel => p = (0, 0, 0))) image ->
  gray_world_means image = (0, 0, 0)%float /\
  PrimFloat.is_nan (fst (fst (gray_world_scales image))) = true /\
  PrimFloat.is_nan (snd (fst (gray_world_scales image))) = true /\
  PrimFloat.is_nan (snd (gray_world_scales image)) = true.
Proof.
  intros Hsize Hblack.
  assert (Hm : forall k, k (0, 0, 0) = 0 -> Np.mean (channel k image) = 0%float).
  { intros k Hk. apply mean_all_zero.
    - rewrite channel_size. exact Hsize.
    - apply channel_all_zero; assumption. }
  unfold gray_world_scales, gray_world_means.
  rewrite (Hm chan0 eq_refl), (Hm chan1 eq_refl), (Hm chan2 eq_refl).
  repeat split; vm_compute; reflexivity.
Qed.

(** ** Statistics reporter: minimum and maximum *)

Lemma fold_min_spec (l : list Z) :
  l <> [] -> Forall uint8 l ->
  In (fold_right Z.min 255 l) l /\
  forall v, In v l -> fold_right Z.min 255 l <= v.
Proof.
  induction l as [|x l IH]; intros Hne Hok; [contradiction Hne; reflexivity|].
  inversion Hok as [|? ? Hx Hl]; subst. unfold uint8 in Hx. simpl.
  destruct l as [|y l].
  - simpl. rewrite Z.min_l by lia. split; [left; reflexivity|].
    intros v [<-|[]]. lia.
  - destruct (IH ltac:(discriminate) Hl) as [Hin Hle].
    set (m := fold_right Z.min 255 (y :: l)) in *.
    split.
    + destruct (Z.le_ge_cases x m).
      * rewrite Z.min_l by lia. left; reflexivity.
      * rewrite Z.min_r by lia. right; exact Hin.
    + intros v [<-|Hv]; [lia|]. specialize (Hle v Hv). lia.
Qed.

Lemma fold_max_spec (l : list Z) :
  l <> [] -> Forall uint8 l ->
  In (fold_right Z.max 0 l) l /\
  forall v, In v l -> v <= fold_right Z.max 0 l.
Proof.
  induction l as [|x l IH]; intros Hne Hok; [contradiction Hne; reflexivity|].
  inversion Hok as [|? ? Hx Hl]; subst. unfold uint8 in Hx. simpl.
  destruct l as [|y l].
  - simpl. rewrite Z.max_l by lia. split; [left; reflexivity|].
    intros v [<-|[]]. lia.
  - destruct (IH ltac:(discriminate) Hl) as [Hin Hle].
    set (m := fold_right Z.max 0 (y :: l)) in *.
    split.
    + destruct (Z.le_ge_cases x m).
      * rewrite Z.max_r by lia. right; exact Hin.
      * rewrite Z.max_l by lia. left; reflexivity.
    + intros v [<-|Hv]; [lia|]. specialize (Hle v Hv). lia.
Qed.

(** X14. For an image whose grayscale raster is not empty and holds
    8-bit values, the minimum and the maximum the reporter prints are
    values of the grayscale raster, and every grayscale value lies
    between them. *)
Theorem statistics_min_max_bracket (cv : Library) (image : raster) :
  let gray := cvtColor_BGR2GRAY cv image in
  concat gray <> [] ->
  Forall uint8 (concat gray) ->
  let s := get_image_statistics cv image in
  In (st_min s) (concat gray) /\
  In (st_max s) (concat gray) /\
  forall v, In v (concat gray) -> st_min s <= v <= st_max s.
Proof.
  intros gray Hne Hok s. unfold s, get_image_statistics. simpl. fold gray.
  unfold amin, amax.
  destruct (fold_min_spec _ Hne Hok) as [Hmin Hlo].
  destruct (fold_max_spec _ Hne Hok) as [Hmax Hhi].
  split; [exact Hmin|]. split; [exact Hmax|].
  intros v Hv. split; [apply Hlo | apply Hhi]; exact Hv.
Qed.

(** ** The further statements at concrete inputs *)

Lemma stand_in_draws_in_place : draws_in_place stand_in.
Proof. intros h w img text org H. exact H. Qed.

Lemma r_new_between_red_and_green_witness :
  Z.min 10 50 <= r_new 10 50 <= Z.max 10 50.
Proof.
  apply (r_new_between_red_and_green 10 50); unfold uint8; lia.
Defined.

Lemma red_compensation_fixed_points_witness :
  raster_ok red_fixed_sample /\
  red_channel_compensation red_fixed_sample = Some red_fixed_sample.
Proof.
  assert (Hok : raster_ok red_fixed_sample)
    by (repeat constructor; vm_compute; discriminate).
  split; [exact Hok|].
  apply (red_compensation_fixed_points red_fixed_sample Hok).
  repeat (first [apply Forall_nil | apply Forall_cons]); vm_compute; auto.
Defined.

Lemma red_compensation_keeps_range_witness :
  shape 2 2 reef_sample /\
  raster_ok reef_sample /\
  exists out,
    red_channel_compensation reef_sample = Some out /\
    shape 2 2 out /\ raster_ok out.
Proof.
  assert (Hs : shape 2 2 reef_sample) by (repeat constructor).
  assert (Hok : raster_ok reef_sample)
    by (repeat constructor; vm_compute; discriminate).
  split; [exact Hs|]. split; [exact Hok|].
  apply (red_compensation_keeps_range 2 2 reef_sample); [lia | lia | exact Hs | exact Hok].
Defined.

Lemma cast_correct_clamped_in_range_witness :
  shifts_in_range cast_sample /\
  cast_correct cast_sample = cast_correct_clamped cast_sample /\
  cast_correct cast_sample = [ [ (100, 132, 126); (200, 134, 122) ] ].
Proof.
  assert (Hin : shifts_in_range cast_sample).
  { unfold shifts_in_range, shift_in_range.
    repeat (constructor; try (vm_compute; reflexivity)). }
  split; [exact Hin|]. split.
  - exact (cast_correct_clamped_in_range cast_sample Hin).
  - vm_compute. reflexivity.
Defined.

Lemma contrast_enhancement_luminance_only_witness :
  shape 1 2 cast_sample /\
  exists final_lab,
    contrast_enhancement stand_in cast_sample = Some final_lab /\
    channel chan0 final_lab
    = CLAHE_apply stand_in 0.5%float (8%nat, 8%nat) (channel chan0 cast_sample) /\
    channel chan1 final_lab = channel chan1 cast_sample /\
    channel chan2 final_lab = channel chan2 cast_sample.
Proof.
  assert (Hs : shape 1 2 cast_sample) by (repeat constructor).
  split; [exact Hs|].
  exact (contrast_enhancement_luminance_only stand_in 1 2 cast_sample
           stand_in_keeps_size Hs).
Defined.

Lemma comparison_is_side_by_side_witness :
  shape 1 2 no_blue /\
  exists comparison,
    visualize_preprocessing_comparison stand_in no_blue no_blue = Some comparison /\
    shape 1 (2 + 2) comparison.
Proof.
  assert (Hs : shape 1 2 no_blue) by (repeat constructor).
  split; [exact Hs|].
  exact (comparison_is_side_by_side stand_in 1 2 2 no_blue no_blue
           stand_in_draws_in_place Hs Hs).
Defined.


Lemma makedirs_failure_reaches_caller_witness :
  os_makedirs stand_in "reef.png" = Some "FileExistsError"%string /\
  let run := process_image stand_in "reef.png" true "reef.png" in
  snd run = Raised "FileExistsError" /\
  imwrites (fst run) = [] /\
  core_calls (fst run) = [ [ [ (200, 50, 10) ] ] ] /\
  exists enhanced,
    preprocess_underwater_image stand_in [ [ (200, 50, 10) ] ] = Some enhanced /\
    fst run = [ EvPrint (nl ++ "Processing: " ++ "reef.png");
                EvPrintSize 1 1;
                EvPrintStats "Original"
                  (get_image_statistics stand_in [ [ (200, 50, 10) ] ]);
                EvCore [ [ (200, 50, 10) ] ];
                EvPrintStats "Enhanced" (get_image_statistics stand_in enhanced) ].
Proof.
  split; [reflexivity|].
  apply (makedirs_failure_reaches_caller stand_in 1 1 "reef.png" "reef.png"
           [ [ (200, 50, 10) ] ] "FileExistsError" stand_in_keeps_size eq_refl).
  - repeat constructor.
  - reflexivity.
Defined.


Lemma zero_mean_channel_gets_cap_witness :
  (0 <? gray_world_avg_gray no_blue)%float = true /\
  fst (fst (gray_world_means no_blue)) = 0%float /\
  fst (fst (gray_world_scales no_blue)) = 4%float.
Proof.
  assert (Hpos : (0 <? gray_world_avg_gray no_blue)%float = true)
    by (vm_compute; reflexivity).
  assert (Hb : fst (fst (gray_world_means no_blue)) = 0%float)
    by (vm_compute; reflexivity).
  split; [exact Hpos|]. split; [exact Hb|].
  exact (proj1 (zero_mean_channel_gets_cap no_blue Hpos) Hb).
Defined.

Lemma gray_world_all_black_any_size_witness :
  gray_world_means all_black = (0, 0, 0)%float /\
  PrimFloat.is_nan (fst (fst (gray_world_scales all_black))) = true /\
  PrimFloat.is_nan (snd (fst (gray_world_scales all_black))) = true /\
  PrimFloat.is_nan (snd (gray_world_scales all_black)) = true.
Proof.
  apply (gray_world_all_black_any_size all_black).
  - vm_compute. split; reflexivity.
  - repeat constructor.
Defined.

Lemma statistics_min_max_bracket_witness :
  cvtColor_BGR2GRAY stand_in reef_sample = [ [50; 128]; [12; 40] ] /\
  st_min (get_image_statistics stand_in reef_sample) = 12 /\
  st_max (get_image_statistics stand_in reef_sample) = 128 /\
  forall v, In v [50; 128; 12; 40] ->
    st_min (get_image_statistics stand_in reef_sample) <= v
    <= st_max (get_image_statistics stand_in reef_sample).
Proof.
  split; [reflexivity|]. split; [reflexivity|]. split; [reflexivity|].
  apply (statistics_min_max_bracket stand_in reef_sample).
  - discriminate.
  - repeat constructor; vm_compute; discriminate.
Defined.

(** * The colour space round trip *)

(** ** Enclosures of the powers in the transform *)

Section Enclosures.
Local Open Scope R_scope.













End Enclosures.

(** ** Two colours with one perceptual value *)



(** ** Distances *)






